(** * ARINC 429 word utilities: a shallow embedding of [include/arinc429/arinc429.h]

    The header is a C++14 template library.  Template instantiation is
    modelled as evaluation: a class template becomes a function from its
    template arguments to the list of diagnostics its [static_assert]s
    emit, a type alias computed by a trait becomes a function returning
    either the type or the diagnostics.  Run-time functions with
    reference parameters are written in state-passing style: a parameter
    taken by non-const reference is returned, a parameter taken by value
    or by const reference is not. *)

From Stdlib Require Import ZArith List String Bool Lia.
From Stdlib Require Import Permutation Eqdep_dec.
From Stdlib Require Import Floats.SpecFloat.
Import ListNotations.

Local Open Scope Z_scope.

(** ** Compile-time outcomes *)

(** What the compiler reports.  The first five are the [static_assert]s of
    the header, named after the error they stand for; [IllFormed] is a hard
    error outside any [static_assert]. *)
Inductive diagnostic : Type :=
| LayoutError          (* "Invalid bit range!" *)
| OutOfRangeError      (* "MSB exceeds maximum index" *)
| CapacityError        (* "Size of data exceeds size of arinc 429 word!" *)
| NotFoundError        (* "Data descriptor not found!" *)
| AmbiguousNameError   (* "Multiple data descriptors with same name were found" *)
| IllFormed (construct : string).

Inductive compiled (A : Type) : Type :=
| Ok (a : A)
| Rejected (ds : list diagnostic).

Arguments Ok {A} a.
Arguments Rejected {A} ds.

Definition bind {A B : Type} (c : compiled A) (k : A -> compiled B) : compiled B :=
  match c with
  | Ok a => k a
  | Rejected ds => Rejected ds
  end.

Notation "x <- c ;; k" := (bind c (fun x => k))
  (at level 61, c at next level, right associativity).

(** [static_assert(cond, msg)]: silent when [cond] holds, one diagnostic
    otherwise.  Every [static_assert] of a class body is evaluated, so the
    diagnostics of a class are the concatenation of those of its
    assertions. *)
Definition static_assert (cond : bool) (msg : diagnostic) : list diagnostic :=
  if cond then [] else [msg].

Definition accepted {A : Type} (c : compiled A) : Prop :=
  exists a, c = Ok a.

(** ** Machine integers and floating point *)

(** [size_t] is 64 bits wide (LP64); arithmetic on it wraps. *)
Definition size_bits : Z := 64.
Definition size_t (z : Z) : Z := z mod 2 ^ size_bits.

(** [double] is IEEE 754 binary64, as the specification floats of the
    standard library. *)
Definition double : Type := spec_float.
Definition double_of_Z (z : Z) : double := binary_normalize 53 1024 z 0 false.
Definition double_mul : double -> double -> double := SFmul 53 1024.
Definition double_div : double -> double -> double := SFdiv 53 1024.
Definition double_add : double -> double -> double := SFadd 53 1024.
Definition double_ltb : double -> double -> bool := SFltb.

(** The arithmetic types a field may carry ([std::is_integral] or
    [std::is_floating_point]). *)
Inductive arith_type : Type :=
| Integral (signed : bool) (bits : Z)
| FloatingPoint.

Definition bool_t : arith_type := Integral false 1.
Definition int8_t : arith_type := Integral true 8.
Definition int32_t : arith_type := Integral true 32.
Definition uint8_t : arith_type := Integral false 8.
Definition uint32_t : arith_type := Integral false 32.
Definition double_t : arith_type := FloatingPoint.

Definition is_floating_point (T : arith_type) : bool :=
  match T with
  | Integral _ _ => false
  | FloatingPoint => true
  end.

Definition is_signed (T : arith_type) : bool :=
  match T with
  | Integral s _ => s
  | FloatingPoint => true
  end.

Inductive value : Type :=
| VIntegral (z : Z)
| VFloating (x : double).

(** [T retVal{};] *)
Definition value_init (T : arith_type) : value :=
  match T with
  | Integral _ _ => VIntegral 0
  | FloatingPoint => VFloating (S754_zero false)
  end.

(** [std::ratio<Num, Den>]: [num] and [den] are the reduced fraction, the
    sign carried by [num]. *)
Record ratio : Type := { num : Z; den : Z }.

Definition std_ratio (Num Den : Z) : ratio :=
  {| num := Z.sgn Den * Num / Z.gcd Num Den;
     den := Z.abs Den / Z.gcd Num Den |}.

(** ** Namespace [detail], first part: type-level helpers *)

Module detail_meta.

(** [detail::conjunction<Bs...>::value]: [true] on the empty pack, the
    single member on a pack of one, otherwise the first member when it is
    false and the conjunction of the others when it is true. *)
Fixpoint conjunction (Bs : list bool) : bool :=
  match Bs with
  | [] => true
  | B1 :: Bn =>
      match Bn with
      | [] => B1
      | _ => if B1 then conjunction Bn else B1
      end
  end.

(** [detail::disjunction<Bs...>::value] *)
Fixpoint disjunction (Bs : list bool) : bool :=
  match Bs with
  | [] => false
  | B1 :: Bn =>
      match Bn with
      | [] => B1
      | _ => if B1 then B1 else disjunction Bn
      end
  end.

(** [detail::sum(args...)], instantiated at [size_t].  With an empty pack
    [std::common_type_t<>] names no type and the call does not compile. *)
Definition sum (args : list Z) : compiled Z :=
  match args with
  | [] => Rejected [IllFormed "detail::sum()"%string]
  | _ => Ok (fold_left (fun sum i => size_t (sum + i)) args 0)
  end.

(** [detail::filter_t<std::tuple<Ts...>, Pred>]: the [tuple_cat] of
    [tuple<T>] for the [Ts] satisfying [Pred] and [tuple<>] for the
    others; order is kept. *)
Fixpoint filter_t {T : Type} (Ts : list T) (Pred : T -> bool) : list T :=
  match Ts with
  | [] => []
  | t :: Ts' => (if Pred t then [t] else []) ++ filter_t Ts' Pred
  end.

End detail_meta.

(** ** Namespace [traits] *)

Module traits.

Definition word_raw_type : Type := Z.          (* uint32_t *)
Definition word_size : Z := 4 * 8.             (* sizeof(word_raw_type) * CHAR_BIT *)

(** A data descriptor type: anything with [lsb()], [msb()], [value_type]
    and [name_type] ([is_valid_data]), plus the [scale_factor_type] that
    [data_descriptor_traits] reads.  Its call operator is described by
    four members:
    - [probe_get V]: whether [T()(declval<V>(), tag_get())] is well
      formed, the expression [defines_getter] inspects;
    - [probe_set V]: the same for [T()(declval<const V>(), tag_set())];
    - [call_get c]: [T()(retVal, wordRaw, tag_get())] as
      [detail::get_value] invokes it, [retVal] being an lvalue of type [V]
      when [c] is [false] and of type [const V] when [c] is [true]; the
      operator may write its arguments, and the pair is what it leaves in
      them;
    - [call_set]: [T()(value, wordRaw, tag_set())] as [detail::set_value]
      invokes it; [value] is const. *)
Record descriptor : Type := {
  name_type : string;
  lsb : Z;
  msb : Z;
  value_type : arith_type;
  scale_factor_type : ratio;
  probe_get : arith_type -> bool;
  probe_set : arith_type -> bool;
  call_get : bool -> option (value -> word_raw_type -> value * word_raw_type);
  call_set : option (value -> word_raw_type -> word_raw_type)
}.

Definition defines_getter (T : descriptor) (ValueType : arith_type) : bool :=
  probe_get T ValueType.

Definition defines_setter (T : descriptor) (ValueType : arith_type) : bool :=
  probe_set T ValueType.

Definition is_same_name_type (NameType : string) (DataDescriptor : descriptor) : bool :=
  String.eqb (name_type DataDescriptor) NameType.

(** [get_data_descriptor<NameType, TupleDataDescriptors, NotFoundPlaceholder>::type].
    [NotFoundPlaceholder] is [None] for the default [void].  The member
    [type] is [std::tuple_element<0, filtered_t>::type] whatever the
    placeholder is; on an empty [filtered_t] that is ill-formed. *)
Definition get_data_descriptor {P : Type} (NameType : string)
    (TupleDataDescriptors : list descriptor) (NotFoundPlaceholder : option P)
  : compiled descriptor :=
  let filtered_t :=
    detail_meta.filter_t TupleDataDescriptors (is_same_name_type NameType) in
  let is_void := match NotFoundPlaceholder with None => true | Some _ => false end in
  let asserts :=
    static_assert (negb is_void || negb (Z.of_nat (List.length filtered_t) =? 0))
                  NotFoundError
    ++ static_assert (Z.of_nat (List.length filtered_t) <? 2) AmbiguousNameError in
  match nth_error filtered_t 0 with
  | Some type =>
      match asserts with
      | [] => Ok type
      | _ => Rejected asserts
      end
  | None => Rejected (asserts ++ [IllFormed "std::tuple_element<0, std::tuple<>>"%string])
  end.

(** [data_descriptor_traits<T>]: the accessors return [size_t]. *)
Module data_descriptor_traits.
Definition lsb (T : descriptor) : Z := size_t (lsb T).
Definition msb (T : descriptor) : Z := size_t (msb T).
Definition scale_factor_type (T : descriptor) : ratio := scale_factor_type T.
End data_descriptor_traits.

(** [get_data_descriptor_t<NameType, WordT>], placeholder defaulted. *)
Definition get_data_descriptor_t (NameType : string) (WordT : list descriptor)
  : compiled descriptor :=
  get_data_descriptor NameType WordT (@None unit).

End traits.

(** ** Namespace [detail], second part: the conversion functions *)

Module detail.
Import traits.

Definition guard {A : Type} (asserts : list diagnostic) (a : A) : compiled A :=
  match asserts with
  | [] => Ok a
  | _ => Rejected asserts
  end.

(** [get_integral_value(T &dest, wordRaw, lsb, msb, is_signed)]: the two
    overloads, selected by the tag.  Both bodies are empty, so [dest]
    keeps the value it came with. *)
Definition get_integral_value (dest : value) (wordRaw : word_raw_type)
    (lsb msb : Z) (is_signed : bool) : value :=
  match is_signed with
  | false => dest     (* TODO: implement *)
  | true => dest      (* TODO: implement *)
  end.

(** [get_value(T &dest, wordRaw, lsb, msb, scaleFactor, is_floating_point)] *)
Definition get_value (T : arith_type) (dest : value) (wordRaw : word_raw_type)
    (lsb msb : Z) (scaleFactor : double) (is_floating_point_tag : bool)
  : compiled value :=
  match is_floating_point_tag with
  | false =>
      guard (static_assert (negb (is_floating_point T))
               (IllFormed "Only integral types are expected!"%string))
            (get_integral_value dest wordRaw lsb msb (is_signed T))
  | true =>
      guard (static_assert (is_floating_point T)
               (IllFormed "Only floating point types are expected!"%string))
            dest      (* TODO: implement *)
  end.

(** [double(scale_factor_t::num / scale_factor_t::den)]: the quotient is
    taken on [intmax_t], then converted. *)
Definition scale_factor_arg (scale_factor_t : ratio) : double :=
  double_of_Z (Z.quot (num scale_factor_t) (den scale_factor_t)).

(** [get_value<DataDescriptor>(ValueType &retVal, wordRaw, defines_getter)]:
    the two overloads, selected by the tag.  [ValueType] is deduced from
    the argument bound to [retVal] and is const when that argument is;
    [is_const] records it.  [wordRaw] is a by-value copy: what the custom
    operator writes to it is dropped. *)
Definition get_value_dd (DataDescriptor : descriptor) (ValueType : arith_type)
    (is_const : bool) (retVal : value) (wordRaw : word_raw_type)
    (defines_getter_tag : bool) : compiled value :=
  match defines_getter_tag with
  | false =>
      get_value ValueType retVal wordRaw
        (data_descriptor_traits.lsb DataDescriptor)
        (data_descriptor_traits.msb DataDescriptor)
        (scale_factor_arg (data_descriptor_traits.scale_factor_type DataDescriptor))
        (is_floating_point ValueType)
  | true =>
      match call_get DataDescriptor is_const with
      | Some call => Ok (fst (call retVal wordRaw))
      | None => Rejected [IllFormed "DataDescriptor()(retVal, wordRaw, tag_get())"%string]
      end
  end.

(** [set_integral_value(const T &value, wordRaw &, lsb, msb, is_signed)] *)
Definition set_integral_value (value : value) (wordRaw : word_raw_type)
    (lsb msb : Z) (is_signed : bool) : word_raw_type :=
  match is_signed with
  | false => wordRaw  (* TODO: implement *)
  | true => wordRaw   (* TODO: implement *)
  end.

(** [set_value(const T &value, wordRaw &, lsb, msb, scaleFactor, is_floating_point)] *)
Definition set_value (T : arith_type) (value : value) (wordRaw : word_raw_type)
    (lsb msb : Z) (scaleFactor : double) (is_floating_point_tag : bool)
  : compiled word_raw_type :=
  match is_floating_point_tag with
  | false =>
      guard (static_assert (negb (is_floating_point T))
               (IllFormed "Only integral types are expected!"%string))
            (set_integral_value value wordRaw lsb msb (is_signed T))
  | true =>
      guard (static_assert (is_floating_point T)
               (IllFormed "Only floating point types are expected!"%string))
            wordRaw   (* TODO: implement *)
  end.

(** [set_value<DataDescriptor>(const ValueType &value, wordRaw &, tag)] *)
Definition set_value_dd (DataDescriptor : descriptor) (ValueType : arith_type)
    (value : value) (wordRaw : word_raw_type) (tag : bool)
  : compiled word_raw_type :=
  match tag with
  | false =>
      set_value ValueType value wordRaw
        (data_descriptor_traits.lsb DataDescriptor)
        (data_descriptor_traits.msb DataDescriptor)
        (scale_factor_arg (data_descriptor_traits.scale_factor_type DataDescriptor))
        (is_floating_point ValueType)
  | true =>
      match call_set DataDescriptor with
      | Some call => Ok (call value wordRaw)
      | None => Rejected [IllFormed "DataDescriptor()(value, wordRaw, tag_set())"%string]
      end
  end.

End detail.

(** ** Namespace [eld::arinc429] *)

Import traits.

(** [get_value(T &destination, wordRaw, lsb, msb, scaleFactor = 1.0)] *)
Definition get_value (T : arith_type) (destination : value) (wordRaw : word_raw_type)
    (lsb msb : Z) (scaleFactor : double) : compiled value :=
  detail.get_value T destination wordRaw lsb msb scaleFactor (is_floating_point T).

(** [get_value<DataDescriptor>(ValueType &retVal, wordRaw)] *)
Definition get_value_dd (DataDescriptor : descriptor) (ValueType : arith_type)
    (retVal : value) (wordRaw : word_raw_type) : compiled value :=
  detail.get_value_dd DataDescriptor ValueType false retVal wordRaw
    (defines_getter DataDescriptor ValueType).

(** [set_value(const T &value, wordRaw &, lsb, msb, scaleFactor = 1.0)] *)
Definition set_value (T : arith_type) (value : value) (wordRaw : word_raw_type)
    (lsb msb : Z) (scaleFactor : double) : compiled word_raw_type :=
  detail.set_value T value wordRaw lsb msb scaleFactor (is_floating_point T).

(** [set_value<DataDescriptor>(const ValueType &value, wordRaw &)].  The
    body calls [detail::get_value<DataDescriptor>] with the
    [defines_getter] tag: [value] is bound to [retVal] as a const lvalue
    and [wordRaw] is copied into the by-value parameter, so neither comes
    back changed. *)
Definition set_value_dd (DataDescriptor : descriptor) (ValueType : arith_type)
    (value : value) (wordRaw : word_raw_type) : compiled word_raw_type :=
  _ <- detail.get_value_dd DataDescriptor ValueType true value wordRaw
         (defines_getter DataDescriptor ValueType) ;;
  Ok wordRaw.

(** The [static_assert] in the body of [word_generic<DataDescriptors...>]. *)
Definition word_generic_asserts (DataDescriptors : list descriptor) : list diagnostic :=
  match detail_meta.sum
          (map (fun D => size_t (data_descriptor_traits.msb D
                                 - data_descriptor_traits.lsb D))
               DataDescriptors) with
  | Ok total => static_assert (total <=? word_size) CapacityError
  | Rejected ds => ds
  end.

(** An object of class [word_generic<DataDescriptors...>]: its one data
    member, and the fact that the class was instantiated without a
    diagnostic. *)
Record word_generic (DataDescriptors : list descriptor) : Type := {
  raw_word_ : word_raw_type;
  instantiated : word_generic_asserts DataDescriptors = []
}.

Arguments raw_word_ {DataDescriptors} _.
Arguments instantiated {DataDescriptors} _.

(** [word_generic<DataDescriptors...>(rawWord)] *)
Definition construct (DataDescriptors : list descriptor) (rawWord : word_raw_type)
  : compiled (word_generic DataDescriptors) :=
  match word_generic_asserts DataDescriptors as ds
        return word_generic_asserts DataDescriptors = ds -> _ with
  | [] => fun H => Ok {| raw_word_ := rawWord; instantiated := H |}
  | ds => fun _ => Rejected ds
  end eq_refl.

Section word_generic_members.
Context {DataDescriptors : list descriptor}.
Local Abbreviation this := (word_generic DataDescriptors).

Definition get_raw (self : this) : word_raw_type := raw_word_ self.

Definition set_raw (rawWord : word_raw_type) (self : this) : this :=
  {| raw_word_ := rawWord; instantiated := instantiated self |}.

(** [get<NameType>()]; returns [retVal] and the object after the call. *)
Definition get (NameType : string) (self : this) : compiled (value * this) :=
  data_descriptor_t <- get_data_descriptor_t NameType DataDescriptors ;;
  let retVal := value_init (value_type data_descriptor_t) in
  retVal <- get_value_dd data_descriptor_t (value_type data_descriptor_t)
              retVal (raw_word_ self) ;;
  Ok (retVal, self).

(** [set<NameType, T>(const T &value)]; returns the object after the call. *)
Definition set (NameType : string) (T : arith_type) (value : value) (self : this)
  : compiled this :=
  data_descriptor_t <- get_data_descriptor_t NameType DataDescriptors ;;
  raw_word <- set_value_dd data_descriptor_t T value (raw_word_ self) ;;
  Ok (set_raw raw_word self).

(** [explicit operator traits::word_raw_type() const] *)
Definition to_word_raw_type (self : this) : word_raw_type := get_raw self.

(** [explicit operator word_generic<ArgsT...>() const] *)
Definition to_word_generic (ArgsT : list descriptor) (self : this)
  : compiled (word_generic ArgsT) :=
  construct ArgsT (get_raw self).

End word_generic_members.

(** The two [static_assert]s in the body of [data_descriptor]. *)
Definition data_descriptor_asserts (LSB MSB : Z) : list diagnostic :=
  static_assert (LSB <? MSB) LayoutError
  ++ static_assert (MSB <=? word_size) OutOfRangeError.

(** The members of [data_descriptor]: [lsb()], [msb()] and the three
    aliases.  It has no call operator. *)
Definition data_descriptor_members (NameType : string) (LSB MSB : Z)
    (ValueType : arith_type) (ScaleFactorT : ratio) : descriptor :=
  {| name_type := NameType;
     lsb := LSB;
     msb := MSB;
     value_type := ValueType;
     scale_factor_type := ScaleFactorT;
     probe_get := fun _ => false;
     probe_set := fun _ => false;
     call_get := fun _ => None;
     call_set := None |}.

(** [data_descriptor<NameType, LSB, MSB, ValueType, ScaleFactorT>]: the
    default descriptor, [ValueType] defaulting to [uint32_t] and
    [ScaleFactorT] to [std::ratio<1, 1>]. *)
Definition data_descriptor (NameType : string) (LSB MSB : Z)
    (ValueType : arith_type) (ScaleFactorT : ratio) : compiled descriptor :=
  detail.guard (data_descriptor_asserts LSB MSB)
    (data_descriptor_members NameType LSB MSB ValueType ScaleFactorT).

(** ** Quantities the statements below speak about *)

(** The width the layout check attributes to a field, [msb - lsb], and its
    total over a word type, both as plain integers. *)
Definition declared_width (D : descriptor) : Z := msb D - lsb D.

Definition total_width (DataDescriptors : list descriptor) : Z :=
  fold_right (fun D acc => declared_width D + acc) 0 DataDescriptors.

(** The same descriptor at another place of the word and with another
    scale factor. *)
Definition relocate (D : descriptor) (LSB MSB : Z) (ScaleFactorT : ratio) : descriptor :=
  {| name_type := name_type D;
     lsb := LSB;
     msb := MSB;
     value_type := value_type D;
     scale_factor_type := ScaleFactorT;
     probe_get := probe_get D;
     probe_set := probe_set D;
     call_get := call_get D;
     call_set := call_set D |}.

Module samples.

(** A discrete code in the low byte with a codec of its own.  The getter
    stores the low byte in [retVal] and clears the word it was handed; on
    a const [retVal] it only clears the word.  The setter rewrites the low
    byte. *)
Definition code_get (retVal : value) (wordRaw : word_raw_type)
  : value * word_raw_type :=
  (VIntegral (Z.land wordRaw 255), 0).

Definition code_get_const (retVal : value) (wordRaw : word_raw_type)
  : value * word_raw_type :=
  (retVal, 0).

Definition code_set (v : value) (wordRaw : word_raw_type) : word_raw_type :=
  match v with
  | VIntegral z => Z.lor (Z.ldiff wordRaw 255) (Z.land z 255)
  | VFloating _ => wordRaw
  end.

Definition code : descriptor :=
  {| name_type := "code";
     lsb := 1;
     msb := 8;
     value_type := uint8_t;
     scale_factor_type := std_ratio 1 1;
     probe_get := fun _ => true;
     probe_set := fun _ => true;
     call_get := fun is_const => Some (if is_const then code_get_const else code_get);
     call_set := Some code_set |}.

(** [data_descriptor<trim, 1, 8, int8_t>] *)
Definition trim : compiled descriptor :=
  data_descriptor "trim" 1 8 int8_t (std_ratio 1 1).

(** [data_descriptor<altitude, 1, 18, double, std::ratio<1, 1000>>] *)
Definition altitude : compiled descriptor :=
  data_descriptor "altitude" 1 18 double_t (std_ratio 1 1000).

(** The members of [data_descriptor<wide, 1, 32>] and of
    [data_descriptor<pair, 1, 3>]: 31 + 2 declared bits. *)
Definition wide : descriptor :=
  data_descriptor_members "wide" 1 32 uint32_t (std_ratio 1 1).

Definition pair : descriptor :=
  data_descriptor_members "pair" 1 3 uint8_t (std_ratio 1 1).

(** Objects of [word_generic<code>]. *)
Definition code_word (rawWord : word_raw_type) : word_generic [code] :=
  Build_word_generic [code] rawWord eq_refl.

(** The [code] field with the getter as its only call operator, in the
    shape [detail::get_value] invokes:
    [void operator()(uint8_t &retVal, word_raw_type wordRaw, tag_get)].
    The two-argument expressions the traits inspect are ill-formed for
    it, and so is the call on a const [retVal]. *)
Definition getter_only : descriptor :=
  {| name_type := "code";
     lsb := 1;
     msb := 8;
     value_type := uint8_t;
     scale_factor_type := std_ratio 1 1;
     probe_get := fun _ => false;
     probe_set := fun _ => false;
     call_get := fun is_const => if is_const then None else Some code_get;
     call_set := None |}.

(** Objects of [word_generic<getter_only>]. *)
Definition getter_only_word (rawWord : word_raw_type) : word_generic [getter_only] :=
  Build_word_generic [getter_only] rawWord eq_refl.

(** A second descriptor type named [code], on bits 9..16. *)
Definition code_twin : descriptor := relocate code 9 16 (std_ratio 1 1).

(** A descriptor type whose call operator only has the two-argument form
    [operator()(uint8_t, tag_get)]. *)
Definition probe_only : descriptor :=
  {| name_type := "probe";
     lsb := 1;
     msb := 8;
     value_type := uint8_t;
     scale_factor_type := std_ratio 1 1;
     probe_get := fun _ => true;
     probe_set := fun _ => false;
     call_get := fun _ => None;
     call_set := None |}.

(** Objects of [word_generic<wide>], [word_generic<code, pair>],
    [word_generic<code, pair, code_twin>] and [word_generic<probe_only>]. *)
Definition wide_word (rawWord : word_raw_type) : word_generic [wide] :=
  Build_word_generic [wide] rawWord eq_refl.

Definition fields_word (rawWord : word_raw_type) : word_generic [code; pair] :=
  Build_word_generic [code; pair] rawWord eq_refl.

Definition twin_word (rawWord : word_raw_type)
  : word_generic ([] ++ code :: [pair] ++ code_twin :: []) :=
  Build_word_generic [code; pair; code_twin] rawWord eq_refl.

Definition probe_only_word (rawWord : word_raw_type) : word_generic [probe_only] :=
  Build_word_generic [probe_only] rawWord eq_refl.

(** What the floating-point rule of the conversion asks for at raw field
    integer 12345 and scale 1/1000: the product taken in [double]. *)
Definition scaled_12345 : double :=
  double_mul (double_of_Z 12345) (double_div (double_of_Z 1) (double_of_Z 1000)).

End samples.

(** * Properties *)

(** ** Compile-time helpers *)

Lemma static_assert_nil (cond : bool) (msg : diagnostic) :
  static_assert cond msg = [] <-> cond = true.
Proof.
  unfold static_assert; destruct cond; split; intro H; try reflexivity; discriminate H.
Qed.

Lemma In_static_assert (cond : bool) (msg d : diagnostic) :
  In d (static_assert cond msg) <-> cond = false /\ d = msg.
Proof.
  unfold static_assert; destruct cond; simpl.
  - split; [intros [] | intros [H _]; discriminate H].
  - split.
    + intros [H | []]; auto.
    + intros [_ H]; auto.
Qed.

Lemma guard_nil {A : Type} (asserts : list diagnostic) (a : A) :
  asserts = [] -> detail.guard asserts a = Ok a.
Proof. intros ->; reflexivity. Qed.

Lemma guard_cons {A : Type} (asserts : list diagnostic) (a : A) :
  asserts <> [] -> detail.guard asserts a = Rejected asserts.
Proof. destruct asserts; [intros H; now elim H | reflexivity]. Qed.

(** ** The default descriptor *)

Section data_descriptor_checks.
Variables (NameType : string) (ValueType : arith_type) (ScaleFactorT : ratio).

Lemma data_descriptor_asserts_nil (LSB MSB : Z) :
  data_descriptor_asserts LSB MSB = [] <-> LSB < MSB <= word_size.
Proof.
  unfold data_descriptor_asserts.
  split.
  - intros H; apply app_eq_nil in H; destruct H as [H1 H2].
    apply static_assert_nil in H1, H2. lia.
  - intros [H1 H2].
    apply Z.ltb_lt in H1; apply Z.leb_le in H2.
    now rewrite H1, H2.
Qed.

(** C7: instantiating [data_descriptor] reports the invalid bit range
    exactly when [lsb >= msb] and the exceeded maximum index exactly when
    [msb] is above the 32-bit word size; with either diagnostic no
    descriptor comes out of the instantiation, and with [lsb < msb <= 32]
    the descriptor is produced with the declared bounds. *)
Theorem data_descriptor_validation (LSB MSB : Z) :
  (In LayoutError (data_descriptor_asserts LSB MSB) <-> MSB <= LSB)
  /\ (In OutOfRangeError (data_descriptor_asserts LSB MSB) <-> 32 < MSB)
  /\ (MSB <= LSB \/ 32 < MSB ->
      data_descriptor NameType LSB MSB ValueType ScaleFactorT
      = Rejected (data_descriptor_asserts LSB MSB)
      /\ ~ accepted (data_descriptor NameType LSB MSB ValueType ScaleFactorT))
  /\ (LSB < MSB <= 32 ->
      exists D,
        data_descriptor NameType LSB MSB ValueType ScaleFactorT = Ok D
        /\ lsb D = LSB /\ msb D = MSB /\ name_type D = NameType
        /\ value_type D = ValueType /\ scale_factor_type D = ScaleFactorT).
Proof.
  repeat split.
  - unfold data_descriptor_asserts; intros H.
    apply in_app_or in H; destruct H as [H | H];
      apply In_static_assert in H; destruct H as [H E]; [| discriminate E].
    apply Z.ltb_ge in H; exact H.
  - intros H; unfold data_descriptor_asserts.
    apply in_or_app; left; apply In_static_assert; split; [| reflexivity].
    now apply Z.ltb_ge.
  - unfold data_descriptor_asserts; intros H.
    apply in_app_or in H; destruct H as [H | H];
      apply In_static_assert in H; destruct H as [H E]; [discriminate E |].
    apply Z.leb_gt in H; exact H.
  - intros H; unfold data_descriptor_asserts.
    apply in_or_app; right; apply In_static_assert; split; [| reflexivity].
    now apply Z.leb_gt.
  - unfold data_descriptor; apply guard_cons.
    intros E; apply data_descriptor_asserts_nil in E. unfold word_size in E; lia.
  - intros [D E]; unfold data_descriptor in E.
    rewrite guard_cons in E; [discriminate E |].
    intros E'; apply data_descriptor_asserts_nil in E'. unfold word_size in E'; lia.
  - intros H; eexists; split.
    + unfold data_descriptor; apply guard_nil.
      apply data_descriptor_asserts_nil; unfold word_size; lia.
    + repeat split.
Qed.

(** C9, as the header has it: a descriptor with [lsb == msb] is rejected
    at every bit position with the invalid bit range diagnostic, and the
    narrowest accepted declaration has [msb = lsb + 1]. *)
Theorem single_bit_descriptor_rejected (p : Z) :
  In LayoutError (data_descriptor_asserts p p)
  /\ ~ accepted (data_descriptor NameType p p ValueType ScaleFactorT)
  /\ (p + 1 <= 32 ->
      accepted (data_descriptor NameType p (p + 1) ValueType ScaleFactorT)).
Proof.
  split; [| split].
  - unfold data_descriptor_asserts; apply in_or_app; left.
    apply In_static_assert; split; [apply Z.ltb_irrefl | reflexivity].
  - intros [D E]; unfold data_descriptor in E.
    rewrite guard_cons in E; [discriminate E |].
    intros E'; apply data_descriptor_asserts_nil in E'; lia.
  - intros H; eexists; unfold data_descriptor; apply guard_nil.
    apply data_descriptor_asserts_nil; unfold word_size; lia.
Qed.

End data_descriptor_checks.

(** C9 does not hold of the header: there is no bit position of the word at which a
    [data_descriptor] with [lsb == msb] is accepted. *)
Lemma single_bit_descriptor_never_accepted :
  ~ (exists (p : Z) (NameType : string) (ValueType : arith_type) (ScaleFactorT : ratio),
        1 <= p <= 32
        /\ accepted (data_descriptor NameType p p ValueType ScaleFactorT)).
Proof.
  intros (p & NameType & ValueType & ScaleFactorT & _ & [D E]).
  unfold data_descriptor in E.
  rewrite guard_cons in E; [discriminate E |].
  intros E'; apply data_descriptor_asserts_nil in E'; lia.
Qed.

(** ** Field lookup *)

Section lookup.
Variable NameType : string.

Lemma filter_t_absent (Tuple : list descriptor) :
  (forall D, In D Tuple -> name_type D <> NameType) ->
  detail_meta.filter_t Tuple (is_same_name_type NameType) = [].
Proof.
  induction Tuple as [| D Tuple IH]; intros H; simpl; [reflexivity |].
  rewrite IH by (intros D' HD'; apply H; now right).
  unfold is_same_name_type.
  destruct (String.eqb_spec (name_type D) NameType) as [E | _]; [| reflexivity].
  exfalso; apply (H D); [now left | exact E].
Qed.

Lemma filter_t_all (Tuple : list descriptor) (D : descriptor) :
  In D (detail_meta.filter_t Tuple (is_same_name_type NameType)) ->
  In D Tuple /\ name_type D = NameType.
Proof.
  induction Tuple as [| D' Tuple IH]; simpl; [intros [] |].
  intros H; apply in_app_or in H; destruct H as [H | H].
  - unfold is_same_name_type in H.
    destruct (String.eqb_spec (name_type D') NameType) as [E | _]; [| destruct H].
    destruct H as [<- | []]; auto.
  - destruct (IH H) as [H1 H2]; auto.
Qed.

(** A successful lookup yields a descriptor of the tuple carrying the
    requested name. *)
Lemma get_data_descriptor_found {P : Type} (Tuple : list descriptor)
    (NotFoundPlaceholder : option P) (D : descriptor) :
  get_data_descriptor NameType Tuple NotFoundPlaceholder = Ok D ->
  In D Tuple /\ name_type D = NameType.
Proof.
  unfold get_data_descriptor.
  destruct (detail_meta.filter_t Tuple (is_same_name_type NameType))
    as [| D0 rest] eqn:F; simpl; [discriminate |].
  intros H.
  assert (D0 = D) as <-.
  { destruct (static_assert _ _ ++ static_assert _ _); [now inversion H | discriminate H]. }
  apply filter_t_all; rewrite F; now left.
Qed.

(** The default lookup succeeds exactly when one descriptor of the tuple
    carries the name. *)
Lemma get_data_descriptor_t_unique (Tuple : list descriptor) (D : descriptor) :
  get_data_descriptor_t NameType Tuple = Ok D
  <-> detail_meta.filter_t Tuple (is_same_name_type NameType) = [D].
Proof.
  unfold get_data_descriptor_t, get_data_descriptor.
  destruct (detail_meta.filter_t Tuple (is_same_name_type NameType))
    as [| D0 [| D1 rest]]; simpl.
  - split; discriminate.
  - split; intros H; inversion H; reflexivity.
  - destruct (Z.ltb_spec
                (Z.pos (Pos.succ (Pos.of_succ_nat (List.length rest)))) 2)
      as [H | _]; [lia |].
    split; discriminate.
Qed.

(** C4, what the header does: when no descriptor of the tuple carries the
    requested name, supplying a placeholder silences the "not found"
    assertion, but the member [type] is still element 0 of the empty
    filtered tuple, and the lookup is ill-formed rather than yielding the
    placeholder. *)
Theorem placeholder_lookup_ill_formed {P : Type} (Tuple : list descriptor)
    (NotFoundPlaceholder : P) :
  (forall D, In D Tuple -> name_type D <> NameType) ->
  get_data_descriptor NameType Tuple (Some NotFoundPlaceholder)
  = Rejected [IllFormed "std::tuple_element<0, std::tuple<>>"%string]
  /\ ~ accepted (get_data_descriptor NameType Tuple (Some NotFoundPlaceholder)).
Proof.
  intros H.
  assert (E : get_data_descriptor NameType Tuple (Some NotFoundPlaceholder)
              = Rejected [IllFormed "std::tuple_element<0, std::tuple<>>"%string]).
  { unfold get_data_descriptor; rewrite (filter_t_absent Tuple H); reflexivity. }
  split; [exact E |].
  intros [D E']; rewrite E in E'; discriminate E'.
Qed.

End lookup.

(** ** The capacity check of a word type *)

Section capacity.

Lemma size_t_idem (z : Z) : size_t (size_t z) = size_t z.
Proof. unfold size_t; apply Z.mod_mod; discriminate. Qed.

Lemma size_t_add (a b : Z) : size_t (size_t a + b) = size_t (a + b).
Proof. unfold size_t; apply Zplus_mod_idemp_l. Qed.

Lemma size_t_add_r (a b : Z) : size_t (a + size_t b) = size_t (a + b).
Proof. unfold size_t; apply Zplus_mod_idemp_r. Qed.

Lemma size_t_width (D : descriptor) :
  size_t (data_descriptor_traits.msb D - data_descriptor_traits.lsb D)
  = size_t (declared_width D).
Proof.
  unfold data_descriptor_traits.msb, data_descriptor_traits.lsb, declared_width, size_t.
  rewrite <- Zminus_mod; reflexivity.
Qed.

(** The loop of [detail::sum] over the widths of a word type computes the
    total width modulo [2 ^ size_bits]. *)
Lemma sum_loop (DataDescriptors : list descriptor) (acc : Z) :
  fold_left (fun sum i => size_t (sum + i))
    (map (fun D => size_t (data_descriptor_traits.msb D
                           - data_descriptor_traits.lsb D)) DataDescriptors)
    (size_t acc)
  = size_t (acc + total_width DataDescriptors).
Proof.
  revert acc; induction DataDescriptors as [| D DD IH]; intros acc; simpl.
  - now rewrite Z.add_0_r.
  - rewrite size_t_width, size_t_add, size_t_add_r, IH.
    f_equal; lia.
Qed.

Lemma sum_of_widths (D : descriptor) (DataDescriptors : list descriptor) :
  detail_meta.sum
    (map (fun D => size_t (data_descriptor_traits.msb D
                           - data_descriptor_traits.lsb D)) (D :: DataDescriptors))
  = Ok (size_t (total_width (D :: DataDescriptors))).
Proof.
  unfold detail_meta.sum.
  change (map ?f (D :: DataDescriptors)) with (f D :: map f DataDescriptors).
  cbv iota. f_equal.
  change 0 with (size_t 0) at 1.
  exact (sum_loop (D :: DataDescriptors) 0).
Qed.

Lemma word_generic_asserts_overflow (DataDescriptors : list descriptor) :
  32 < total_width DataDescriptors < 2 ^ size_bits ->
  word_generic_asserts DataDescriptors = [CapacityError].
Proof.
  intros H. unfold word_generic_asserts.
  destruct DataDescriptors as [| D DD]; [simpl in H; lia |].
  rewrite sum_of_widths.
  unfold size_t; rewrite Z.mod_small by lia.
  unfold static_assert, word_size.
  destruct (Z.leb_spec (total_width (D :: DD)) (4 * 8)); [lia | reflexivity].
Qed.

(** Word types made of fields that lie within the word stay far below
    what [size_t] can hold. *)
Lemma total_width_bound (DataDescriptors : list descriptor) :
  (forall D, In D DataDescriptors -> 0 <= lsb D /\ msb D <= 32) ->
  total_width DataDescriptors <= 32 * Z.of_nat (List.length DataDescriptors).
Proof.
  induction DataDescriptors as [| D DD IH]; intros H.
  - simpl; lia.
  - change (total_width (D :: DD)) with (declared_width D + total_width DD).
    change (List.length (D :: DD)) with (S (List.length DD)).
    assert (HD : 0 <= lsb D /\ msb D <= 32) by (apply H; now left).
    assert (IH' : total_width DD <= 32 * Z.of_nat (List.length DD))
      by (apply IH; intros D' HD'; apply H; now right).
    unfold declared_width; lia.
Qed.

(** C5: a word type whose declared widths [msb - lsb] add up to more than
    the 32 bits of the word (the total being one [size_t] can hold) fails
    the capacity assertion of the class; every attempt to construct an
    object is rejected with that diagnostic and the type has no
    objects. *)
Theorem capacity_checked_at_definition (DataDescriptors : list descriptor) :
  32 < total_width DataDescriptors < 2 ^ size_bits ->
  word_generic_asserts DataDescriptors = [CapacityError]
  /\ (forall rawWord, construct DataDescriptors rawWord = Rejected [CapacityError])
  /\ (word_generic DataDescriptors -> False).
Proof.
  intros H.
  pose proof (word_generic_asserts_overflow DataDescriptors H) as E.
  split; [exact E | split].
  - intros rawWord. unfold construct.
    generalize (eq_refl (word_generic_asserts DataDescriptors)).
    generalize (word_generic_asserts DataDescriptors) at 2 3.
    intros ds Hds; destruct ds as [| d ds].
    + exfalso; congruence.
    + rewrite <- Hds, E; reflexivity.
  - intros w. pose proof (instantiated w) as E'.
    rewrite E in E'; discriminate E'.
Qed.

End capacity.

(** ** The conversion functions *)

Section conversion.
Variables (T : arith_type) (lsb msb : Z) (scaleFactor : double).

Lemma get_value_leaves_destination (destination : value) (wordRaw : word_raw_type) :
  get_value T destination wordRaw lsb msb scaleFactor = Ok destination.
Proof.
  unfold get_value, detail.get_value, detail.get_integral_value.
  destruct T as [[|] bits |]; reflexivity.
Qed.

Lemma set_value_leaves_word (v : value) (wordRaw : word_raw_type) :
  set_value T v wordRaw lsb msb scaleFactor = Ok wordRaw.
Proof.
  unfold set_value, detail.set_value, detail.set_integral_value.
  destruct T as [[|] bits |]; reflexivity.
Qed.

End conversion.

Lemma detail_get_value_dd_generic (D : descriptor) (ValueType : arith_type)
    (is_const : bool) (retVal : value) (wordRaw : word_raw_type) :
  detail.get_value_dd D ValueType is_const retVal wordRaw false = Ok retVal.
Proof.
  unfold detail.get_value_dd.
  exact (get_value_leaves_destination ValueType _ _ _ retVal wordRaw).
Qed.

(** [set_value<DataDescriptor>] hands the word back as it received it
    whenever it compiles. *)
Lemma set_value_dd_keeps_word (D : descriptor) (ValueType : arith_type)
    (v : value) (wordRaw wordRaw' : word_raw_type) :
  set_value_dd D ValueType v wordRaw = Ok wordRaw' -> wordRaw' = wordRaw.
Proof.
  unfold set_value_dd, bind.
  destruct (detail.get_value_dd D ValueType true v wordRaw (defines_getter D ValueType));
    intros H; [now inversion H | discriminate H].
Qed.

(** C2, what the header does: [set_integral_value] and
    [get_integral_value] have empty bodies, so encoding 1 into the signed
    field of bits 1..8 of a zero word leaves the word zero and decoding
    leaves the zero-initialised destination as it was; the round trip
    returns 0, through the free functions and through the word container
    alike. *)
Theorem signed_round_trip_returns_initial_destination :
  - 2 ^ (8 - 1) <= 1 <= 2 ^ (8 - 1) - 1
  /\ (wordRaw <- set_value int8_t (VIntegral 1) 0 1 8 (double_of_Z 1) ;;
      get_value int8_t (value_init int8_t) wordRaw 1 8 (double_of_Z 1))
     = Ok (VIntegral 0)
  /\ (D <- samples.trim ;;
      w <- construct [D] 0 ;;
      w <- set "trim" int8_t (VIntegral 1) w ;;
      r <- get "trim" w ;;
      Ok (fst r, get_raw (snd r)))
     = Ok (VIntegral 0, 0).
Proof.
  split; [lia | split; reflexivity].
Qed.

(** C3, what the header does: the floating-point overload of
    [detail::get_value] has an empty body and the scale factor it is handed
    is the integer quotient [1 / 1000 = 0]; reading the field of scale
    1/1000 holding raw integer 12345 returns the zero-initialised 0.0,
    more than 12 below the scaled value. *)
Theorem floating_get_returns_zero :
  (D <- samples.altitude ;;
   w <- construct [D] 12345 ;;
   r <- get "altitude" w ;;
   Ok (fst r))
  = Ok (VFloating (S754_zero false))
  /\ detail.scale_factor_arg (std_ratio 1 1000) = S754_zero false
  /\ double_ltb (double_add (S754_zero false) (double_of_Z 12)) samples.scaled_12345
     = true.
Proof.
  repeat split; vm_compute; reflexivity.
Qed.

(** ** The word container *)

Section container.
Context {DataDescriptors : list descriptor}.
Implicit Types (self : word_generic DataDescriptors) (NameType : string).

Lemma set_raw_same self : set_raw (raw_word_ self) self = self.
Proof. destruct self; reflexivity. Qed.

(** [set] never changes the object. *)
Lemma set_keeps_object self NameType (T : arith_type) (v : value) self' :
  set NameType T v self = Ok self' -> self' = self.
Proof.
  unfold set, bind.
  destruct (get_data_descriptor_t NameType DataDescriptors) as [D | ds];
    [| discriminate].
  destruct (set_value_dd D T v (raw_word_ self)) as [raw | ds] eqn:E;
    [| discriminate].
  apply set_value_dd_keeps_word in E; subst raw.
  intros H; inversion H; apply set_raw_same.
Qed.

(** The detected case: when the two-argument probe of [defines_getter]
    succeeds for the descriptor found and the three-argument operator
    exists, [get] returns what that operator leaves in [retVal] when
    called on the zero-initialised [retVal] and the stored raw word,
    wherever the descriptor places the field and whatever its scale
    factor. *)
Lemma get_calls_custom_getter self NameType (D : descriptor)
    (call : value -> word_raw_type -> value * word_raw_type) :
  get_data_descriptor_t NameType DataDescriptors = Ok D ->
  defines_getter D (value_type D) = true ->
  call_get D false = Some call ->
  get NameType self
  = Ok (fst (call (value_init (value_type D)) (get_raw self)), self)
  /\ get_value_dd D (value_type D) (value_init (value_type D)) (get_raw self)
     = detail.get_value_dd D (value_type D) false (value_init (value_type D))
         (get_raw self) true
  /\ forall LSB MSB ScaleFactorT,
       get_value_dd (relocate D LSB MSB ScaleFactorT) (value_type D)
         (value_init (value_type D)) (get_raw self)
       = Ok (fst (call (value_init (value_type D)) (get_raw self))).
Proof.
  intros HD Hg Hc. split; [| split].
  - unfold get, bind; rewrite HD.
    unfold get_value_dd; rewrite Hg.
    unfold detail.get_value_dd; rewrite Hc; reflexivity.
  - unfold get_value_dd; rewrite Hg; reflexivity.
  - intros LSB MSB ScaleFactorT.
    unfold get_value_dd, defines_getter, relocate; simpl.
    unfold defines_getter in Hg; rewrite Hg.
    unfold detail.get_value_dd; simpl; rewrite Hc; reflexivity.
Qed.

(** C10: for a name the lookup resolves (and a getter that can be called
    when the descriptor defines one), [get] returns a value and leaves
    the object, hence its raw word, as it was. *)
Theorem get_leaves_raw_word self NameType (D : descriptor) :
  get_data_descriptor_t NameType DataDescriptors = Ok D ->
  (defines_getter D (value_type D) = true -> call_get D false <> None) ->
  exists retVal after,
    get NameType self = Ok (retVal, after)
    /\ get_raw after = get_raw self
    /\ forall n, Z.testbit (get_raw after) n = Z.testbit (get_raw self) n.
Proof.
  intros HD Hc.
  unfold get, bind; rewrite HD.
  unfold get_value_dd.
  destruct (defines_getter D (value_type D)) eqn:Hg.
  - unfold detail.get_value_dd.
    destruct (call_get D false) as [call |]; [| now elim Hc].
    do 2 eexists; split; [reflexivity | split; reflexivity].
  - rewrite detail_get_value_dd_generic.
    do 2 eexists; split; [reflexivity | split; reflexivity].
Qed.

Lemma construct_ok (rawWord : word_raw_type) :
  word_generic_asserts DataDescriptors = [] ->
  exists w : word_generic DataDescriptors,
    construct DataDescriptors rawWord = Ok w /\ get_raw w = rawWord.
Proof.
  intros E. unfold construct.
  generalize (eq_refl (word_generic_asserts DataDescriptors)).
  generalize (word_generic_asserts DataDescriptors) at 2 3.
  intros ds Hds; destruct ds as [| d ds].
  - eexists; split; reflexivity.
  - exfalso; congruence.
Qed.

End container.

(** C6, what the header does: [defines_getter] inspects the two-argument
    call [T()(declval<ValueType>(), tag_get())], while the getter overload
    of [detail::get_value] makes the three-argument call
    [DataDescriptor()(retVal, wordRaw, tag_get())].  The [code] field whose
    descriptor defines exactly the operator that overload calls is not
    detected: [get] on raw word 300 takes the generic overload and returns
    the zero-initialised 0 without calling the operator, which on the
    getter overload yields the low byte 44. *)
Theorem custom_getter_not_detected :
  call_get samples.getter_only false = Some samples.code_get
  /\ defines_getter samples.getter_only (value_type samples.getter_only) = false
  /\ get "code" (samples.getter_only_word 300)
     = Ok (VIntegral 0, samples.getter_only_word 300)
  /\ get_value_dd samples.getter_only uint8_t (value_init uint8_t) 300
     = detail.get_value uint8_t (value_init uint8_t) 300 (size_t 1) (size_t 8)
         (detail.scale_factor_arg (std_ratio 1 1)) false
  /\ detail.get_value_dd samples.getter_only uint8_t false (value_init uint8_t) 300 true
     = Ok (VIntegral 44).
Proof.
  repeat split.
Qed.


(** C1, what the header does: [set_value<DataDescriptor>] calls
    [detail::get_value] under the [defines_getter] tag.  On the word type
    of the [code] field, setting 5 on a zero word runs the descriptor's
    getter on copies and leaves the stored raw word 0, where the
    descriptor's setter, reached through [detail::set_value], encodes 5.
    For a default descriptor the call ends in the integral branch of
    [detail::get_value]. *)
Theorem set_takes_getter_path :
  (w <- set "code" uint8_t (VIntegral 5) (samples.code_word 0) ;; Ok (get_raw w))
  = Ok 0
  /\ set_value_dd samples.wide uint32_t (VIntegral 5) 0
     = (_ <- detail.get_value uint32_t (VIntegral 5) 0 (size_t 1) (size_t 32)
              (detail.scale_factor_arg (std_ratio 1 1)) false ;;
        Ok 0)
  /\ set_value_dd samples.code uint8_t (VIntegral 5) 0
     = (_ <- detail.get_value_dd samples.code uint8_t true (VIntegral 5) 0
              (defines_getter samples.code uint8_t) ;;
        Ok 0)
  /\ detail.set_value_dd samples.code uint8_t (VIntegral 5) 0
       (defines_setter samples.code uint8_t)
     = Ok 5.
Proof.
  repeat split.
Qed.

(** ** The theorems at sample inputs *)

Lemma data_descriptor_validation_at_samples :
  accepted (data_descriptor "value" 11 28 double_t (std_ratio 1 4))
  /\ data_descriptor "flag" 5 5 bool_t (std_ratio 1 1) = Rejected [LayoutError]
  /\ data_descriptor "far" 30 40 uint32_t (std_ratio 1 1) = Rejected [OutOfRangeError]
  /\ data_descriptor "both" 40 35 uint32_t (std_ratio 1 1)
     = Rejected [LayoutError; OutOfRangeError].
Proof.
  pose proof (data_descriptor_validation "value" double_t (std_ratio 1 4) 11 28)
    as (_ & _ & _ & Hok).
  pose proof (data_descriptor_validation "flag" bool_t (std_ratio 1 1) 5 5)
    as (_ & _ & Hflag & _).
  pose proof (data_descriptor_validation "far" uint32_t (std_ratio 1 1) 30 40)
    as (_ & _ & Hfar & _).
  pose proof (data_descriptor_validation "both" uint32_t (std_ratio 1 1) 40 35)
    as (_ & _ & Hboth & _).
  split; [| split; [| split]].
  - destruct Hok as (D & E & _); [lia | exists D; exact E].
  - apply Hflag; left; lia.
  - apply Hfar; right; lia.
  - apply Hboth; left; lia.
Defined.

Lemma single_bit_descriptor_rejected_at_samples :
  ~ accepted (data_descriptor "flag" 5 5 bool_t (std_ratio 1 1))
  /\ accepted (data_descriptor "flag" 5 6 bool_t (std_ratio 1 1)).
Proof.
  pose proof (single_bit_descriptor_rejected "flag" bool_t (std_ratio 1 1) 5)
    as (_ & Hno & Hnext).
  split; [exact Hno | apply Hnext; lia].
Defined.

Lemma placeholder_lookup_ill_formed_at_code :
  (forall D, In D [samples.code; samples.wide] -> name_type D <> "ssm"%string)
  /\ get_data_descriptor "ssm" [samples.code; samples.wide] (Some tt)
     = Rejected [IllFormed "std::tuple_element<0, std::tuple<>>"%string]
  /\ ~ accepted (get_data_descriptor "ssm" [samples.code; samples.wide] (Some tt)).
Proof.
  assert (H : forall D, In D [samples.code; samples.wide] -> name_type D <> "ssm"%string).
  { intros D [<- | [<- | []]]; simpl; discriminate. }
  split; [exact H |].
  exact (placeholder_lookup_ill_formed "ssm" [samples.code; samples.wide] tt H).
Defined.

Lemma capacity_checked_at_wide_pair :
  32 < total_width [samples.wide; samples.pair] < 2 ^ size_bits
  /\ word_generic_asserts [samples.wide; samples.pair] = [CapacityError]
  /\ (forall rawWord,
        construct [samples.wide; samples.pair] rawWord = Rejected [CapacityError])
  /\ (word_generic [samples.wide; samples.pair] -> False).
Proof.
  assert (H : 32 < total_width [samples.wide; samples.pair] < 2 ^ size_bits).
  { split; reflexivity. }
  split; [exact H |].
  exact (capacity_checked_at_definition [samples.wide; samples.pair] H).
Defined.

Lemma get_calls_custom_getter_at_code :
  get "code" (samples.code_word 300) = Ok (VIntegral 44, samples.code_word 300).
Proof.
  exact (proj1 (get_calls_custom_getter (samples.code_word 300) "code" samples.code
                  samples.code_get eq_refl eq_refl eq_refl)).
Defined.

Lemma get_leaves_raw_word_at_code :
  exists retVal after,
    get "code" (samples.code_word 300) = Ok (retVal, after)
    /\ get_raw after = 300
    /\ forall n, Z.testbit (get_raw after) n = Z.testbit 300 n.
Proof.
  refine (get_leaves_raw_word (samples.code_word 300) "code" samples.code eq_refl _).
  intros _ H; discriminate H.
Defined.


(** * Further properties of the header *)

(** ** Type-level helpers *)

(** [conjunction] holds exactly when every member does, [disjunction]
    exactly when some member does. *)
Theorem conjunction_disjunction_spec (Bs : list bool) :
  (detail_meta.conjunction Bs = true <-> forall B, In B Bs -> B = true)
  /\ (detail_meta.disjunction Bs = true <-> In true Bs).
Proof.
  split.
  - induction Bs as [| B1 Bn IH].
    + split; [intros _ B [] | reflexivity].
    + change (detail_meta.conjunction (B1 :: Bn))
        with (match Bn with
              | [] => B1
              | _ => if B1 then detail_meta.conjunction Bn else B1
              end).
      destruct Bn as [| B2 Bn].
      * split; [intros -> B [<- | []]; reflexivity | intros H; apply H; now left].
      * destruct B1.
        -- rewrite IH; split.
           ++ intros H B [<- | HB]; [reflexivity | now apply H].
           ++ intros H B HB; apply H; now right.
        -- split; [discriminate | intros H; apply H; now left].
  - induction Bs as [| B1 Bn IH].
    + split; [discriminate | intros []].
    + change (detail_meta.disjunction (B1 :: Bn))
        with (match Bn with
              | [] => B1
              | _ => if B1 then B1 else detail_meta.disjunction Bn
              end).
      destruct Bn as [| B2 Bn].
      * split; [intros ->; now left | intros [-> | []]; reflexivity].
      * destruct B1.
        -- split; [intros _; now left | reflexivity].
        -- rewrite IH; split; [intros H; now right | intros [H | H]; [discriminate H | exact H]].
Qed.

Lemma sum_fold (args : list Z) (acc : Z) :
  fold_left (fun sum i => size_t (sum + i)) args (size_t acc)
  = size_t (acc + fold_right Z.add 0 args).
Proof.
  revert acc; induction args as [| i args IH]; intros acc; simpl.
  - now rewrite Z.add_0_r.
  - rewrite size_t_add, IH; f_equal; lia.
Qed.

(** [detail::sum] of a non-empty pack of [size_t] values is their sum
    modulo [2 ^ 64], hence their sum when that fits [size_t]. *)
Theorem sum_is_sum_modulo (args : list Z) :
  args <> [] ->
  detail_meta.sum args = Ok (size_t (fold_right Z.add 0 args))
  /\ (0 <= fold_right Z.add 0 args < 2 ^ size_bits ->
      detail_meta.sum args = Ok (fold_right Z.add 0 args)).
Proof.
  intros Hne.
  assert (E : detail_meta.sum args = Ok (size_t (fold_right Z.add 0 args))).
  { destruct args as [| i args]; [now elim Hne |].
    unfold detail_meta.sum. f_equal.
    change 0 with (size_t 0) at 1.
    exact (sum_fold (i :: args) 0). }
  split; [exact E |].
  intros Hr; rewrite E; unfold size_t; now rewrite Z.mod_small.
Qed.

Lemma filter_t_filter {T : Type} (Ts : list T) (Pred : T -> bool) :
  detail_meta.filter_t Ts Pred = List.filter Pred Ts.
Proof.
  induction Ts as [| t Ts IH]; simpl; [reflexivity |].
  rewrite IH; destruct (Pred t); reflexivity.
Qed.

(** [detail::filter_t] is the order-preserving filter: it keeps exactly
    the members satisfying the predicate. *)
Theorem filter_t_is_filter {T : Type} (Ts : list T) (Pred : T -> bool) :
  detail_meta.filter_t Ts Pred = List.filter Pred Ts
  /\ forall t, In t (detail_meta.filter_t Ts Pred) <-> In t Ts /\ Pred t = true.
Proof.
  split; [apply filter_t_filter |].
  intros t; rewrite filter_t_filter; apply filter_In.
Qed.

(** ** Field lookup *)

Section lookup_outcomes.
Context {P : Type}.
Variables (NameType : string) (NotFoundPlaceholder : option P).

Let filtered (Tuple : list descriptor) : list descriptor :=
  detail_meta.filter_t Tuple (is_same_name_type NameType).

(** The outcome of a lookup, by the number of descriptors carrying the
    name. *)
Lemma lookup_by_filtered (Tuple : list descriptor) :
  match filtered Tuple with
  | [] =>
      get_data_descriptor NameType Tuple NotFoundPlaceholder
      = Rejected
          (match NotFoundPlaceholder with
           | None => [NotFoundError]
           | Some _ => []
           end ++ [IllFormed "std::tuple_element<0, std::tuple<>>"%string])
  | [D] => get_data_descriptor NameType Tuple NotFoundPlaceholder = Ok D
  | _ :: _ :: _ =>
      get_data_descriptor NameType Tuple NotFoundPlaceholder
      = Rejected [AmbiguousNameError]
  end.
Proof.
  unfold filtered, get_data_descriptor.
  destruct (detail_meta.filter_t Tuple (is_same_name_type NameType))
    as [| D0 [| D1 rest]].
  - destruct NotFoundPlaceholder; reflexivity.
  - destruct NotFoundPlaceholder; reflexivity.
  - cbn [nth_error].
    replace (Z.of_nat (List.length (D0 :: D1 :: rest)) =? 0) with false
      by (symmetry; apply Z.eqb_neq; cbn [List.length]; lia).
    replace (Z.of_nat (List.length (D0 :: D1 :: rest)) <? 2) with false
      by (symmetry; apply Z.ltb_ge; cbn [List.length]; lia).
    rewrite orb_true_r; reflexivity.
Qed.

Lemma filtered_app (l1 l2 : list descriptor) :
  filtered (l1 ++ l2) = filtered l1 ++ filtered l2.
Proof.
  unfold filtered.
  rewrite !filter_t_filter; apply filter_app.
Qed.

Lemma filtered_cons_same (D : descriptor) (l : list descriptor) :
  name_type D = NameType -> filtered (D :: l) = D :: filtered l.
Proof.
  intros E; unfold filtered; simpl.
  unfold is_same_name_type at 1; rewrite E, String.eqb_refl; reflexivity.
Qed.

Lemma lookup_two_matches (l1 l2 l3 : list descriptor) (D1 D2 : descriptor) :
  name_type D1 = NameType ->
  name_type D2 = NameType ->
  exists A B rest, filtered (l1 ++ D1 :: l2 ++ D2 :: l3) = A :: B :: rest.
Proof.
  intros E1 E2.
  rewrite filtered_app, (filtered_cons_same D1 _ E1), filtered_app,
    (filtered_cons_same D2 _ E2).
  destruct (filtered l1) as [| A [| B r1]]; simpl.
  - destruct (filtered l2) as [| A r2]; simpl; do 3 eexists; reflexivity.
  - destruct (filtered l2) as [| A2 r2]; simpl; do 3 eexists; reflexivity.
  - do 3 eexists; reflexivity.
Qed.

Lemma lookup_ambiguous (Tuple : list descriptor) (A B : descriptor)
    (rest : list descriptor) :
  filtered Tuple = A :: B :: rest ->
  get_data_descriptor NameType Tuple NotFoundPlaceholder
  = Rejected [AmbiguousNameError].
Proof.
  intros E; pose proof (lookup_by_filtered Tuple) as H.
  rewrite E in H; exact H.
Qed.

(** A name carried by two descriptors of the tuple is rejected as
    ambiguous, whether or not a placeholder is supplied. *)
Theorem duplicate_name_rejected (l1 l2 l3 : list descriptor) (D1 D2 : descriptor) :
  name_type D1 = NameType ->
  name_type D2 = NameType ->
  get_data_descriptor NameType (l1 ++ D1 :: l2 ++ D2 :: l3) NotFoundPlaceholder
  = Rejected [AmbiguousNameError].
Proof.
  intros E1 E2.
  destruct (lookup_two_matches l1 l2 l3 D1 D2 E1 E2) as (A & B & rest & E).
  exact (lookup_ambiguous _ A B rest E).
Qed.

(** A name carried by exactly one descriptor resolves to that descriptor,
    wherever it stands in the tuple and whatever the placeholder. *)
Theorem unique_name_found (l1 l2 : list descriptor) (D : descriptor) :
  name_type D = NameType ->
  (forall D', In D' (l1 ++ l2) -> name_type D' <> NameType) ->
  get_data_descriptor NameType (l1 ++ D :: l2) NotFoundPlaceholder = Ok D.
Proof.
  intros E Hother.
  pose proof (lookup_by_filtered (l1 ++ D :: l2)) as H.
  rewrite filtered_app, (filtered_cons_same D _ E) in H.
  unfold filtered in H.
  rewrite (filter_t_absent NameType l1), (filter_t_absent NameType l2) in H.
  - exact H.
  - intros D' HD'; apply Hother, in_or_app; now right.
  - intros D' HD'; apply Hother, in_or_app; now left.
Qed.

(** The outcome of a lookup does not depend on the order of the
    descriptors in the tuple. *)
Theorem lookup_order_irrelevant (Tuple Tuple' : list descriptor) :
  Permutation Tuple Tuple' ->
  get_data_descriptor NameType Tuple NotFoundPlaceholder
  = get_data_descriptor NameType Tuple' NotFoundPlaceholder.
Proof.
  intros HP.
  assert (HF : Permutation (filtered Tuple) (filtered Tuple')).
  { unfold filtered; rewrite !filter_t_filter.
    induction HP as [| x l l' _ IH | x y l | l l' l'' _ IH1 _ IH2]; simpl.
    - constructor.
    - destruct (is_same_name_type NameType x); [now constructor | exact IH].
    - destruct (is_same_name_type NameType x), (is_same_name_type NameType y);
        try apply Permutation_refl; apply perm_swap.
    - now transitivity (List.filter (is_same_name_type NameType) l'). }
  pose proof (lookup_by_filtered Tuple) as H.
  pose proof (lookup_by_filtered Tuple') as H'.
  pose proof (Permutation_length HF) as HL.
  destruct (filtered Tuple) as [| D0 [| D1 rest]].
  - apply Permutation_nil in HF; rewrite HF in H'; congruence.
  - apply Permutation_length_1_inv in HF; rewrite HF in H'; congruence.
  - destruct (filtered Tuple') as [| D0' [| D1' rest']];
      [discriminate HL | discriminate HL | congruence].
Qed.

End lookup_outcomes.

Lemma lookup_absent (NameType : string) (Tuple : list descriptor) :
  (forall D, In D Tuple -> name_type D <> NameType) ->
  get_data_descriptor_t NameType Tuple
  = Rejected [NotFoundError; IllFormed "std::tuple_element<0, std::tuple<>>"%string].
Proof.
  intros H.
  pose proof (lookup_by_filtered NameType (@None unit) Tuple) as L.
  cbv beta zeta in L.
  rewrite (filter_t_absent NameType Tuple H) in L; exact L.
Qed.

(** A name carried by no descriptor is rejected as not found when no
    placeholder is supplied, on the empty tuple in particular. *)
Theorem absent_name_rejected (NameType : string) (Tuple : list descriptor) :
  (forall D, In D Tuple -> name_type D <> NameType) ->
  get_data_descriptor_t NameType Tuple
  = Rejected [NotFoundError; IllFormed "std::tuple_element<0, std::tuple<>>"%string]
  /\ get_data_descriptor_t NameType []
     = Rejected [NotFoundError; IllFormed "std::tuple_element<0, std::tuple<>>"%string].
Proof.
  intros H; split; [exact (lookup_absent NameType Tuple H) | reflexivity].
Qed.

(** ** The capacity check *)

Lemma total_width_app (l1 l2 : list descriptor) :
  total_width (l1 ++ l2) = total_width l1 + total_width l2.
Proof.
  induction l1 as [| D l1 IH]; [reflexivity |].
  change (total_width ((D :: l1) ++ l2))
    with (declared_width D + total_width (l1 ++ l2)).
  change (total_width (D :: l1)) with (declared_width D + total_width l1).
  rewrite IH; lia.
Qed.

Lemma total_width_permutation (DataDescriptors DataDescriptors' : list descriptor) :
  Permutation DataDescriptors DataDescriptors' ->
  total_width DataDescriptors = total_width DataDescriptors'.
Proof.
  induction 1 as [| x l l' _ IH | x y l | l l' l'' _ IH1 _ IH2].
  - reflexivity.
  - change (declared_width x + total_width l = declared_width x + total_width l').
    now rewrite IH.
  - change (declared_width y + (declared_width x + total_width l)
            = declared_width x + (declared_width y + total_width l)).
    lia.
  - now rewrite IH1.
Qed.

Lemma word_generic_asserts_cons (D : descriptor) (DataDescriptors : list descriptor) :
  word_generic_asserts (D :: DataDescriptors)
  = static_assert (size_t (total_width (D :: DataDescriptors)) <=? 32) CapacityError.
Proof.
  unfold word_generic_asserts; rewrite sum_of_widths; reflexivity.
Qed.

Lemma word_generic_asserts_nil (DataDescriptors : list descriptor) :
  word_generic_asserts DataDescriptors = []
  <-> DataDescriptors <> [] /\ size_t (total_width DataDescriptors) <= 32.
Proof.
  destruct DataDescriptors as [| D DD].
  - split; [discriminate | intros [H _]; now elim H].
  - rewrite word_generic_asserts_cons.
    rewrite static_assert_nil, Z.leb_le.
    split; [intros H; split; [discriminate | exact H] | intros [_ H]; exact H].
Qed.

(** The class body of [word_generic] is silent exactly for a non-empty
    pack whose widths [msb - lsb] add up, modulo [2 ^ 64], to at most 32;
    the empty pack is ill-formed and every other pack gets the capacity
    diagnostic alone. *)
Theorem capacity_check_characterised (DataDescriptors : list descriptor) :
  (word_generic_asserts DataDescriptors = []
   <-> DataDescriptors <> [] /\ size_t (total_width DataDescriptors) <= 32)
  /\ (DataDescriptors = [] \/ 32 < size_t (total_width DataDescriptors)
      <-> word_generic_asserts DataDescriptors <> [])
  /\ (word_generic_asserts DataDescriptors = []
      \/ word_generic_asserts DataDescriptors = [CapacityError]
      \/ DataDescriptors = []).
Proof.
  destruct DataDescriptors as [| D DD].
  - split; [| split].
    + split; [discriminate | intros [H _]; now elim H].
    + split; [discriminate | intros _; now left].
    + right; right; reflexivity.
  - rewrite word_generic_asserts_cons.
    unfold static_assert.
    destruct (Z.leb_spec (size_t (total_width (D :: DD))) 32) as [H | H].
    + split; [| split].
      * split; [intros _; split; [discriminate | exact H] | reflexivity].
      * split; [intros [E | E]; [discriminate E | lia] | intros E; now elim E].
      * now left.
    + split; [| split].
      * split; [discriminate | intros [_ H']; lia].
      * split; [discriminate | intros _; now right].
      * right; left; reflexivity.
Qed.

(** The check bounds the total of the widths only: two default
    descriptors declared on the same bits make an accepted word type as
    long as twice their width fits the word. *)
Theorem overlapping_fields_accepted (Name1 Name2 : string) (LSB MSB : Z)
    (V1 V2 : arith_type) (S1 S2 : ratio) (D1 D2 : descriptor) (rawWord : word_raw_type) :
  data_descriptor Name1 LSB MSB V1 S1 = Ok D1 ->
  data_descriptor Name2 LSB MSB V2 S2 = Ok D2 ->
  MSB - LSB <= 16 ->
  lsb D1 = lsb D2 /\ msb D1 = msb D2
  /\ exists w : word_generic [D1; D2],
       construct [D1; D2] rawWord = Ok w /\ get_raw w = rawWord.
Proof.
  intros E1 E2 Hw.
  unfold data_descriptor in E1, E2.
  destruct (data_descriptor_asserts LSB MSB) eqn:EA; [| discriminate E1].
  apply data_descriptor_asserts_nil in EA.
  inversion E1; inversion E2; subst D1 D2; clear E1 E2.
  split; [reflexivity | split; [reflexivity |]].
  apply construct_ok.
  rewrite word_generic_asserts_cons.
  unfold total_width, declared_width, size_t, static_assert; simpl.
  rewrite Z.mod_small by lia.
  destruct (Z.leb_spec (MSB - LSB + (MSB - LSB + 0)) 32); [reflexivity | lia].
Qed.

(** The diagnostics of a word type do not depend on the order of its
    descriptors. *)
Theorem capacity_order_irrelevant (DataDescriptors DataDescriptors' : list descriptor) :
  Permutation DataDescriptors DataDescriptors' ->
  word_generic_asserts DataDescriptors = word_generic_asserts DataDescriptors'.
Proof.
  intros HP.
  pose proof (total_width_permutation _ _ HP) as HT.
  destruct DataDescriptors as [| D DD].
  - apply Permutation_nil in HP; now subst.
  - destruct DataDescriptors' as [| D' DD'].
    + apply Permutation_sym, Permutation_nil in HP; discriminate HP.
    + now rewrite !word_generic_asserts_cons, HT.
Qed.

Lemma total_width_lower (DataDescriptors : list descriptor) :
  (forall D, In D DataDescriptors -> lsb D < msb D) ->
  Z.of_nat (List.length DataDescriptors) <= total_width DataDescriptors.
Proof.
  induction DataDescriptors as [| D DD IH]; intros H.
  - simpl; lia.
  - change (total_width (D :: DD)) with (declared_width D + total_width DD).
    change (List.length (D :: DD)) with (S (List.length DD)).
    assert (HD : lsb D < msb D) by (apply H; now left).
    assert (IH' : Z.of_nat (List.length DD) <= total_width DD)
      by (apply IH; intros D' HD'; apply H; now right).
    unfold declared_width; lia.
Qed.

(** An accepted word type whose fields all satisfy the bounds the default
    descriptor enforces ([0 <= lsb < msb <= 32]) has between 1 and 32
    fields and a total width of at most 32, the number of fields being one
    that cannot make the [size_t] sum wrap. *)
Theorem accepted_word_type_field_count (DataDescriptors : list descriptor) :
  (forall D, In D DataDescriptors -> 0 <= lsb D < msb D /\ msb D <= 32) ->
  Z.of_nat (List.length DataDescriptors) < 2 ^ 58 ->
  word_generic_asserts DataDescriptors = [] ->
  1 <= Z.of_nat (List.length DataDescriptors) <= 32
  /\ total_width DataDescriptors <= 32.
Proof.
  intros HD HL HA.
  apply word_generic_asserts_nil in HA.
  destruct HA as [Hne Hs].
  assert (Hlo : Z.of_nat (List.length DataDescriptors) <= total_width DataDescriptors).
  { apply total_width_lower; intros D H; apply HD in H; lia. }
  assert (Hhi : total_width DataDescriptors
                <= 32 * Z.of_nat (List.length DataDescriptors)).
  { apply total_width_bound; intros D H; apply HD in H; lia. }
  assert (Hsmall : size_t (total_width DataDescriptors) = total_width DataDescriptors).
  { unfold size_t, size_bits; apply Z.mod_small; lia. }
  rewrite Hsmall in Hs.
  destruct DataDescriptors as [| D DD]; [now elim Hne |].
  change (List.length (D :: DD)) with (S (List.length DD)) in *.
  lia.
Qed.

(** ** Objects, raw access and reinterpretation *)

Lemma diagnostic_eq_dec (d1 d2 : diagnostic) : {d1 = d2} + {d1 <> d2}.
Proof. decide equality; apply string_dec. Qed.

(** An object is determined by its raw word. *)
Lemma word_generic_ext {DataDescriptors : list descriptor}
    (w1 w2 : word_generic DataDescriptors) :
  get_raw w1 = get_raw w2 -> w1 = w2.
Proof.
  destruct w1 as [r1 H1], w2 as [r2 H2]; unfold get_raw; simpl.
  intros ->; f_equal.
  apply UIP_dec, list_eq_dec, diagnostic_eq_dec.
Qed.

Lemma construct_rejected (DataDescriptors : list descriptor) (rawWord : word_raw_type) :
  word_generic_asserts DataDescriptors <> [] ->
  construct DataDescriptors rawWord = Rejected (word_generic_asserts DataDescriptors).
Proof.
  intros Hne. unfold construct.
  generalize (eq_refl (word_generic_asserts DataDescriptors)).
  generalize (word_generic_asserts DataDescriptors) at 2 3.
  intros ds Hds; destruct ds as [| d ds].
  - exfalso; congruence.
  - now rewrite Hds.
Qed.

Section raw_access.
Context {DataDescriptors : list descriptor}.
Implicit Types (self : word_generic DataDescriptors) (r : word_raw_type).

(** [set_raw] and [get_raw] are each other's inverse, and the last
    [set_raw] wins. *)
Theorem raw_access_laws self r r' :
  get_raw (set_raw r self) = r
  /\ set_raw (get_raw self) self = self
  /\ set_raw r (set_raw r' self) = set_raw r self.
Proof.
  repeat split; apply word_generic_ext; reflexivity.
Qed.

Lemma construct_of_get_raw self :
  construct DataDescriptors (get_raw self) = Ok self.
Proof.
  destruct (construct_ok (get_raw self) (instantiated self)) as [w [E R]].
  rewrite E; f_equal; apply word_generic_ext; exact R.
Qed.

Lemma get_raw_of_construct r (w : word_generic DataDescriptors) :
  construct DataDescriptors r = Ok w -> get_raw w = r.
Proof.
  intros E.
  destruct (construct_ok r (instantiated w)) as [w' [E' R]].
  rewrite E in E'; inversion E'; subst w'; exact R.
Qed.

(** Converting an object to its raw word and constructing an object of
    the same type from that word gives the object back; the raw word of a
    constructed object is the constructor argument. *)
Theorem construct_raw_round_trip self :
  construct DataDescriptors (to_word_raw_type self) = Ok self
  /\ forall r w, construct DataDescriptors r = Ok w -> to_word_raw_type w = r.
Proof.
  split; [apply construct_of_get_raw | apply get_raw_of_construct].
Qed.

End raw_access.

(** Reinterpreting an object as another word type and back gives the
    object back, and reinterpreting in two steps is reinterpreting in
    one. *)
Theorem reinterpretation_round_trip (A B : list descriptor)
    (a : word_generic A) (b : word_generic B) :
  to_word_generic B a = Ok b ->
  to_word_generic A b = Ok a
  /\ forall C, to_word_generic C b = to_word_generic C a.
Proof.
  intros E.
  assert (R : get_raw b = get_raw a).
  { unfold to_word_generic in E.
    exact (get_raw_of_construct _ _ E). }
  split.
  - unfold to_word_generic; rewrite R.
    exact (construct_of_get_raw a).
  - intros C; unfold to_word_generic; now rewrite R.
Qed.

(** Constructing an object of, or reinterpreting an object as, a word type
    whose class body emits diagnostics is rejected with exactly those
    diagnostics, whatever the raw word and the source type. *)
Theorem ill_formed_target_rejected (A B : list descriptor) (a : word_generic A)
    (rawWord : word_raw_type) :
  word_generic_asserts B <> [] ->
  construct B rawWord = Rejected (word_generic_asserts B)
  /\ to_word_generic B a = Rejected (word_generic_asserts B).
Proof.
  intros H; split; [| unfold to_word_generic]; now apply construct_rejected.
Qed.

(** ** The conversion functions *)

(** [double(num / den)] divides on integers first: every scale factor
    strictly between -1 and 1 reaches the conversion functions as 0.0, and
    a scale factor of denominator 1 as its numerator. *)
Theorem scale_factor_arg_truncates (scale_factor_t : ratio) :
  (Z.abs (num scale_factor_t) < den scale_factor_t ->
   detail.scale_factor_arg scale_factor_t = S754_zero false)
  /\ (den scale_factor_t = 1 ->
      detail.scale_factor_arg scale_factor_t = double_of_Z (num scale_factor_t)).
Proof.
  unfold detail.scale_factor_arg; split.
  - intros H.
    assert (Q : Z.quot (num scale_factor_t) (den scale_factor_t) = 0)
      by (apply Z.quot_small_iff; lia).
    rewrite Q; reflexivity.
  - intros ->; now rewrite Z.quot_1_r.
Qed.

(** The free conversion functions are the identity on what they are meant
    to write: [set_value] returns the word it received, [get_value] the
    destination it received, for every type, bit range and scale factor;
    writing a value and reading the same bit range back yields the
    destination's former content. *)
Theorem free_conversions_write_nothing (T : arith_type) (v destination : value)
    (wordRaw : word_raw_type) (lsb msb : Z) (scaleFactor : double) :
  set_value T v wordRaw lsb msb scaleFactor = Ok wordRaw
  /\ get_value T destination wordRaw lsb msb scaleFactor = Ok destination
  /\ (w <- set_value T v wordRaw lsb msb scaleFactor ;;
      get_value T destination w lsb msb scaleFactor) = Ok destination.
Proof.
  rewrite set_value_leaves_word, get_value_leaves_destination; simpl.
  rewrite get_value_leaves_destination; repeat split.
Qed.

(** ** Field access through the word container *)

Section field_access.
Context {DataDescriptors : list descriptor}.
Implicit Types (self : word_generic DataDescriptors) (NameType : string).

(** For a field whose descriptor is not detected as defining a getter, so
    for every default descriptor, [get] returns the zero-initialised value
    of the field's type whatever the raw word holds. *)
Theorem get_without_getter_returns_initial self NameType (D : descriptor) :
  get_data_descriptor_t NameType DataDescriptors = Ok D ->
  defines_getter D (value_type D) = false ->
  get NameType self = Ok (value_init (value_type D), self).
Proof.
  intros HD Hg.
  unfold get, bind; rewrite HD.
  unfold get_value_dd; rewrite Hg, detail_get_value_dd_generic; reflexivity.
Qed.

(** [set] on a resolved name returns the object as it was, for every type
    and value, provided the getter it calls on the const value exists when
    the descriptor is detected as defining one. *)
Theorem set_leaves_object self NameType (T : arith_type) (v : value) (D : descriptor) :
  get_data_descriptor_t NameType DataDescriptors = Ok D ->
  (defines_getter D T = true -> call_get D true <> None) ->
  set NameType T v self = Ok self.
Proof.
  intros HD Hc.
  unfold set, bind; rewrite HD.
  unfold set_value_dd, bind.
  destruct (defines_getter D T) eqn:Hg.
  - unfold detail.get_value_dd.
    destruct (call_get D true) as [call |]; [| now elim Hc].
    f_equal; apply set_raw_same.
  - rewrite detail_get_value_dd_generic.
    f_equal; apply set_raw_same.
Qed.

(** A descriptor detected as defining a getter whose call operator cannot
    be invoked on [(retVal, wordRaw, tag_get())] makes [get] ill-formed;
    the detection looks at a call with two arguments, the invocation has
    three. *)
Theorem detected_getter_not_callable self NameType (D : descriptor) :
  get_data_descriptor_t NameType DataDescriptors = Ok D ->
  defines_getter D (value_type D) = true ->
  call_get D false = None ->
  get NameType self
  = Rejected [IllFormed "DataDescriptor()(retVal, wordRaw, tag_get())"%string].
Proof.
  intros HD Hg Hc.
  unfold get, bind; rewrite HD.
  unfold get_value_dd; rewrite Hg.
  unfold detail.get_value_dd; rewrite Hc; reflexivity.
Qed.

(** [get] and [set] on a name that no descriptor of the word type carries
    are rejected as not found. *)
Theorem unknown_field_rejected self NameType (T : arith_type) (v : value) :
  (forall D, In D DataDescriptors -> name_type D <> NameType) ->
  get NameType self
  = Rejected [NotFoundError; IllFormed "std::tuple_element<0, std::tuple<>>"%string]
  /\ set NameType T v self
     = Rejected [NotFoundError; IllFormed "std::tuple_element<0, std::tuple<>>"%string].
Proof.
  intros H.
  unfold get, set, bind.
  rewrite (lookup_absent NameType DataDescriptors H).
  split; reflexivity.
Qed.

End field_access.

(** [get] and [set] on a name that two descriptors of the word type carry
    are rejected as ambiguous. *)
Theorem ambiguous_field_rejected (l1 l2 l3 : list descriptor) (D1 D2 : descriptor)
    (self : word_generic (l1 ++ D1 :: l2 ++ D2 :: l3)) (T : arith_type) (v : value) :
  name_type D1 = name_type D2 ->
  get (name_type D1) self = Rejected [AmbiguousNameError]
  /\ set (name_type D1) T v self = Rejected [AmbiguousNameError].
Proof.
  intros E.
  destruct (lookup_two_matches (name_type D1) l1 l2 l3 D1 D2 eq_refl (eq_sym E))
    as (A & B & rest & EF).
  unfold get, set, get_data_descriptor_t, bind.
  rewrite (lookup_ambiguous (name_type D1) (@None unit) _ A B rest EF).
  split; reflexivity.
Qed.

(** ** The further properties at sample inputs *)

Lemma sum_is_sum_modulo_at_sample :
  detail_meta.sum [7; 2 ^ 64 - 1] = Ok 6
  /\ detail_meta.sum [7; 2; 7] = Ok 16.
Proof.
  assert (H1 : [7; 2 ^ 64 - 1] <> []) by discriminate.
  assert (H2 : [7; 2; 7] <> []) by discriminate.
  split.
  - exact (proj1 (sum_is_sum_modulo [7; 2 ^ 64 - 1] H1)).
  - apply (proj2 (sum_is_sum_modulo [7; 2; 7] H2)).
    split; [discriminate | reflexivity].
Defined.

Lemma duplicate_name_rejected_at_sample :
  get_data_descriptor "code" [samples.code; samples.pair; samples.code_twin] (Some tt)
  = Rejected [AmbiguousNameError].
Proof.
  exact (duplicate_name_rejected "code" (Some tt) [] [samples.pair] []
           samples.code samples.code_twin eq_refl eq_refl).
Defined.

Lemma unique_name_found_at_sample :
  get_data_descriptor "pair" [samples.code; samples.pair; samples.code_twin] (@None unit)
  = Ok samples.pair.
Proof.
  refine (unique_name_found "pair" None [samples.code] [samples.code_twin]
            samples.pair eq_refl _).
  intros D [<- | [<- | []]]; simpl; discriminate.
Defined.

Lemma lookup_order_irrelevant_at_sample :
  get_data_descriptor "pair" [samples.code; samples.pair] (@None unit)
  = get_data_descriptor "pair" [samples.pair; samples.code] (@None unit).
Proof.
  exact (lookup_order_irrelevant "pair" None [samples.code; samples.pair]
           [samples.pair; samples.code] (perm_swap _ _ _)).
Defined.

Lemma absent_name_rejected_at_sample :
  get_data_descriptor_t "ssm" [samples.code; samples.pair]
  = Rejected [NotFoundError; IllFormed "std::tuple_element<0, std::tuple<>>"%string].
Proof.
  refine (proj1 (absent_name_rejected "ssm" [samples.code; samples.pair] _)).
  intros D [<- | [<- | []]]; simpl; discriminate.
Defined.

Lemma overlapping_fields_accepted_at_sample :
  exists w : word_generic [data_descriptor_members "a" 1 8 uint8_t (std_ratio 1 1);
                           data_descriptor_members "b" 1 8 int8_t (std_ratio 1 1)],
    construct _ 255 = Ok w /\ get_raw w = 255.
Proof.
  refine (proj2 (proj2 (overlapping_fields_accepted "a" "b" 1 8 uint8_t int8_t
                          (std_ratio 1 1) (std_ratio 1 1) _ _ 255
                          eq_refl eq_refl _))).
  discriminate.
Defined.

Lemma capacity_order_irrelevant_at_sample :
  word_generic_asserts [samples.wide; samples.pair]
  = word_generic_asserts [samples.pair; samples.wide].
Proof.
  exact (capacity_order_irrelevant [samples.wide; samples.pair]
           [samples.pair; samples.wide] (perm_swap _ _ _)).
Defined.

Lemma accepted_word_type_field_count_at_sample :
  1 <= Z.of_nat (List.length [samples.code; samples.pair; samples.code_twin]) <= 32
  /\ total_width [samples.code; samples.pair; samples.code_twin] <= 32.
Proof.
  refine (accepted_word_type_field_count
            [samples.code; samples.pair; samples.code_twin] _ _ eq_refl).
  - intros D [<- | [<- | [<- | []]]]; simpl; lia.
  - reflexivity.
Defined.

Lemma reinterpretation_round_trip_at_sample :
  to_word_generic [samples.code] (samples.wide_word 300) = Ok (samples.code_word 300)
  /\ forall C, to_word_generic C (samples.wide_word 300)
               = to_word_generic C (samples.code_word 300).
Proof.
  exact (reinterpretation_round_trip [samples.code] [samples.wide]
           (samples.code_word 300) (samples.wide_word 300) eq_refl).
Defined.

Lemma ill_formed_target_rejected_at_sample :
  construct [samples.wide; samples.pair] 300 = Rejected [CapacityError]
  /\ to_word_generic [samples.wide; samples.pair] (samples.code_word 300)
     = Rejected [CapacityError].
Proof.
  refine (ill_formed_target_rejected [samples.code] [samples.wide; samples.pair]
            (samples.code_word 300) 300 _).
  discriminate.
Defined.

Lemma get_without_getter_returns_initial_at_sample :
  get "wide" (samples.wide_word 300) = Ok (VIntegral 0, samples.wide_word 300).
Proof.
  exact (get_without_getter_returns_initial (samples.wide_word 300) "wide"
           samples.wide eq_refl eq_refl).
Defined.

Lemma set_leaves_object_at_sample :
  set "code" uint8_t (VIntegral 5) (samples.fields_word 300)
  = Ok (samples.fields_word 300).
Proof.
  refine (set_leaves_object (samples.fields_word 300) "code" uint8_t (VIntegral 5)
            samples.code eq_refl _).
  intros _ H; discriminate H.
Defined.

Lemma detected_getter_not_callable_at_sample :
  get "probe" (samples.probe_only_word 300)
  = Rejected [IllFormed "DataDescriptor()(retVal, wordRaw, tag_get())"%string].
Proof.
  exact (detected_getter_not_callable (samples.probe_only_word 300) "probe"
           samples.probe_only eq_refl eq_refl eq_refl).
Defined.

Lemma unknown_field_rejected_at_sample :
  get "ssm" (samples.fields_word 300)
  = Rejected [NotFoundError; IllFormed "std::tuple_element<0, std::tuple<>>"%string]
  /\ set "ssm" uint8_t (VIntegral 3) (samples.fields_word 300)
     = Rejected [NotFoundError; IllFormed "std::tuple_element<0, std::tuple<>>"%string].
Proof.
  refine (unknown_field_rejected (samples.fields_word 300) "ssm" uint8_t (VIntegral 3) _).
  intros D [<- | [<- | []]]; simpl; discriminate.
Defined.

Lemma ambiguous_field_rejected_at_sample :
  get "code" (samples.twin_word 300) = Rejected [AmbiguousNameError]
  /\ set "code" uint8_t (VIntegral 5) (samples.twin_word 300)
     = Rejected [AmbiguousNameError].
Proof.
  exact (ambiguous_field_rejected [] [samples.pair] [] samples.code samples.code_twin
           (samples.twin_word 300) uint8_t (VIntegral 5) eq_refl).
Defined.
